(** * RealtimeLambdaSubscriber: composite-resource wiring

    A shallow embedding of
    [pkg/platform/src/components/aws/realtime-lambda-subscriber.ts].

    The component declares three child resources (a handler function, an
    IoT topic rule and a Lambda permission) whose construction arguments
    reference one another through deferred values.  Declaration is a
    synchronous pass over a registry of declared nodes; the values that
    only the provisioning engine knows (ARNs, physical names) are supplied
    by an [Engine] parameter. *)

From stdpp Require Import base strings list gmap fin_maps.

Open Scope string_scope.
Open Scope list_scope.

(** ** Deferred values *)

(** The identities a deferred value depends on. *)
Abbreviation Deps := (gset string).

(** [Output<T>]: the eventual value together with its dependency set. *)
Record Output (A : Type) := MkOutput { value : A; deps : Deps }.
Arguments MkOutput {A} _ _.
Arguments value {A} _.
Arguments deps {A} _.

(** [Input<T>]: either a plain value or an already deferred one. *)
Inductive Input (A : Type) :=
| Plain (v : A)
| Deferred (o : Output A).
Arguments Plain {A} _.
Arguments Deferred {A} _.

(** Modelled from the spec: [output] of the deployment library is [lift]
    of section 4.1; it wraps a plain value with no dependency and passes
    an existing deferred value through unchanged. *)
Definition output {A} (i : Input A) : Output A :=
  match i with
  | Plain v => MkOutput v ∅
  | Deferred o => o
  end.

(** Modelled from the spec: field projection on a deferred value is [map]
    of section 4.1; the dependency set of the source is kept, and when the
    projected field is itself deferred its dependencies are added. *)
Definition apply {A B} (o : Output A) (f : A → Input B) : Output B :=
  let r := output (f (value o)) in
  MkOutput (value r) (deps o ∪ deps r).

(** A template literal: literal chunks and deferred holes, in order. *)
Inductive Part :=
| Lit (s : string)
| Hole (o : Output string).

(** Modelled from the spec: [interpolate] of section 4.1; the value is the
    template with every hole substituted, the dependency set is the union
    of the holes' dependency sets. *)
Fixpoint interpolate (t : list Part) : Output string :=
  match t with
  | [] => MkOutput "" ∅
  | Lit s :: r =>
      let o := interpolate r in MkOutput (s +:+ value o) (deps o)
  | Hole h :: r =>
      let o := interpolate r in MkOutput (value h +:+ value o) (deps h ∪ deps o)
  end.

(** The deferred holes of a template. *)
Fixpoint holes (t : list Part) : list (Output string) :=
  match t with
  | [] => []
  | Lit _ :: r => holes r
  | Hole h :: r => h :: holes r
  end.

(** ** Draft arguments *)

(** A loosely typed draft value: the leaves are inputs, the inner nodes
    are arrays and object literals. *)
#[local] Unset Elimination Schemes.
Inductive Val :=
| VStr (i : Input string)
| VBool (i : Input bool)
| VArr (l : list Val)
| VObj (fields : list (string * Val)).
#[local] Set Elimination Schemes.

(** Induction over draft values, through arrays and object literals. *)
Section Val_ind.
Context (P : Val → Prop).
Context (HStr : ∀ i, P (VStr i)) (HBool : ∀ i, P (VBool i)).
Context (HArr : ∀ l, Forall P l → P (VArr l)).
Context (HObj : ∀ fields, Forall (λ kv, P kv.2) fields → P (VObj fields)).

Fixpoint Val_ind (v : Val) : P v :=
  match v with
  | VStr i => HStr i
  | VBool i => HBool i
  | VArr l =>
      HArr l ((fix go (l : list Val) : Forall P l :=
                 match l with
                 | [] => @List.Forall_nil _ _
                 | x :: r => @List.Forall_cons _ P x r (Val_ind x) (go r)
                 end) l)
  | VObj fields =>
      HObj fields
        ((fix go (l : list (string * Val)) : Forall (λ kv, P kv.2) l :=
            match l with
            | [] => @List.Forall_nil _ _
            | kv :: r =>
                @List.Forall_cons _ (λ kv, P kv.2) kv r (Val_ind kv.2) (go r)
            end) fields)
  end.
End Val_ind.

(** A draft struct: the top-level object handed to a resource constructor. *)
Abbreviation Struct := (gmap string Val).

Definition inputDeps {A} (i : Input A) : Deps := deps (output i).

(** Dependencies embedded anywhere in a draft value. *)
Fixpoint valDeps (v : Val) : Deps :=
  match v with
  | VStr i => inputDeps i
  | VBool i => inputDeps i
  | VArr l => ⋃ (valDeps <$> l)
  | VObj fields => ⋃ ((λ kv, valDeps kv.2) <$> fields)
  end.

(** The dependency sets of the deferred leaves referenced by a draft
    value, one entry per leaf. *)
Fixpoint valLeaves (v : Val) : list Deps :=
  match v with
  | VStr i => [inputDeps i]
  | VBool i => [inputDeps i]
  | VArr l => mjoin (valLeaves <$> l)
  | VObj fields => mjoin ((λ kv, valLeaves kv.2) <$> fields)
  end.

Definition structDeps (s : Struct) : Deps :=
  ⋃ ((λ kv, valDeps kv.2) <$> map_to_list s).

Definition structLeaves (s : Struct) : list Deps :=
  mjoin ((λ kv, valLeaves kv.2) <$> map_to_list s).

(** ** Resource nodes and the declaration registry *)

Inductive Kind :=
| KComponent (type : string)
| KFunction
| KTopicRule
| KPermission.

(** [string | FunctionArgs]: a handler path or a full function
    definition object. *)
Inductive FunctionDef :=
| DefHandler (handler : string)
| DefArgs (a : Struct).

(** What a node was declared with: an object literal, or a function
    definition together with the composite's overrides. *)
Inductive Draft :=
| DraftStruct (s : Struct)
| DraftDefinition (definition : option (Input FunctionDef)) (override : Struct).

Definition definitionDeps (d : option (Input FunctionDef)) : Deps :=
  match d with
  | None => ∅
  | Some i =>
      inputDeps i ∪
      match value (output i) with
      | DefHandler _ => ∅
      | DefArgs a => structDeps a
      end
  end.

Definition definitionLeaves (d : option (Input FunctionDef)) : list Deps :=
  match d with
  | None => []
  | Some i =>
      inputDeps i ::
      match value (output i) with
      | DefHandler _ => []
      | DefArgs a => structLeaves a
      end
  end.

Definition draftDeps (d : Draft) : Deps :=
  match d with
  | DraftStruct s => structDeps s
  | DraftDefinition def override => definitionDeps def ∪ structDeps override
  end.

Definition draftLeaves (d : Draft) : list Deps :=
  match d with
  | DraftStruct s => structLeaves s
  | DraftDefinition def override => definitionLeaves def ++ structLeaves override
  end.

Record ResourceNode := MkNode {
  kind : Kind;
  identity : string;
  parent : option string;
  draftArgs : Draft;
  dependsOn : Deps;
}.

(** [ComponentResourceOptions], restricted to what affects the graph. *)
Record ResourceOptions := MkOpts {
  opt_parent : option string;
  opt_dependsOn : Deps;
}.

Abbreviation Registry := (list ResourceNode).

Inductive Error := MkError (message : string).

Inductive Completion (A : Type) :=
| Returned (a : A)
| Thrown (e : Error).
Arguments Returned {A} _.
Arguments Thrown {A} _.

(** Declaration code runs against the registry of nodes declared so far
    and either returns or throws. *)
Definition M (A : Type) : Type := Registry → Completion A * Registry.

#[export] Instance M_ret : MRet M := λ A a st, (Returned a, st).
#[export] Instance M_bind : MBind M := λ A B f m st,
  match m st with
  | (Returned a, st') => f a st'
  | (Thrown e, st') => (Thrown e, st')
  end.

(** Modelled from the spec: [declare] of section 4.3, the registration
    done by every resource constructor of the deployment library.  The
    node records the dependencies embedded in its draft together with the
    explicit ones, and is appended to the registry. *)
Definition declare (k : Kind) (id : string) (draft : Draft)
    (opts : ResourceOptions) : M ResourceNode :=
  λ st,
    let n := {| kind := k; identity := id; parent := opt_parent opts;
                draftArgs := draft;
                dependsOn := draftDeps draft ∪ opt_dependsOn opts |} in
    (Returned n, st ++ [n]).

(** The provisioning engine: the physical attribute (["arn"], ["name"])
    it eventually reports for a declared node. *)
Abbreviation Engine := (ResourceNode → string → string).

(** An attribute of a declared node, as the deferred value a resource
    handle exposes: it depends on exactly that node. *)
Definition attribute (engine : Engine) (n : ResourceNode) (attr : string)
    : Output string :=
  MkOutput (engine n attr) {[ identity n ]}.

(** ** Transform hooks *)

Abbreviation Transform := (Struct → Struct).

Section transform.
(** The field names the composite marks as owned for the draft at hand. *)
Context (owned : gset string).

(** Owned fields from [defaults], every other field from [candidate]. *)
Definition reassert (defaults candidate : Struct) : Struct :=
  filter (λ kv, kv.1 ∈ owned) defaults ∪ filter (λ kv, kv.1 ∉ owned) candidate.

(** Modelled from the spec: [transform] of [../component], which is not
    part of the sources at hand, is [applyTransform] of section 4.2.
    Without a hook the defaults are returned unchanged; otherwise the
    hook runs on the defaults and the owned fields are re-asserted on
    its output. *)
Definition transform (hook : option Transform) (defaults : Struct) : Struct :=
  match hook with
  | None => defaults
  | Some h => reassert defaults (h defaults)
  end.
End transform.

(** ** Collaborating resource constructors *)

Module Function.
(** The handle of a function component. *)
Record t := Mk { identity : string; arn : Output string; name : Output string }.

(** Modelled from the spec: [Function.fromDefinition] of [./function],
    which is not part of the sources at hand, is the compute-function
    constructor of section 6.  It declares one node for the definition
    with the composite's overrides and returns its handle as a deferred
    value derived from the definition input.  The call in this file
    passes [undefined] for the fourth parameter, which is left out.
    Neither this file nor the spec tells what the function does with a
    missing definition; it is passed on like any other. *)
Definition fromDefinition (engine : Engine) (name : string)
    (definition : option (Input FunctionDef)) (override : Struct)
    (opts : ResourceOptions) : M (Output t) :=
  n ← declare KFunction name (DraftDefinition definition override) opts;
  mret (MkOutput
          {| identity := name;
             arn := attribute engine n "arn";
             name := attribute engine n "name" |}
          (from_option inputDeps ∅ definition)).
End Function.

Module TopicRule.
Record t := Mk { identity : string; arn : Output string }.

(** Modelled from the spec: the event-routing-rule constructor of
    section 6, [new aws.iot.TopicRule(name, args, opts)]. *)
Definition new (engine : Engine) (name : string) (args : Struct)
    (opts : ResourceOptions) : M t :=
  n ← declare KTopicRule name (DraftStruct args) opts;
  mret {| identity := name; arn := attribute engine n "arn" |}.
End TopicRule.

Module Permission.
Record t := Mk { identity : string }.

(** Modelled from the spec: the invocation-permission constructor of
    section 6, [new aws.lambda.Permission(name, args, opts)]. *)
Definition new (name : string) (args : Struct) (opts : ResourceOptions) : M t :=
  n ← declare KPermission name (DraftStruct args) opts;
  mret {| identity := name |}.
End Permission.

Module Component.
(** Modelled from the spec: the [Component] base class of [../component]
    is not part of the sources at hand; its constructor registers the
    composite itself, under its type token and name, in the scope given
    by the caller's options.  A composite has no draft of its own. *)
Definition new (type name : string) (opts : option ResourceOptions) : M unit :=
  _ ← declare (KComponent type) name (DraftStruct ∅)
        (default (MkOpts None ∅) opts);
  mret ().
End Component.

(** ** The component *)

Record IotRef := { iot_name : Input string }.

Record TransformMap := { topicRule : option Transform }.

(** [Args]: [iot] and [subscriber] from this file, [filter] and
    [transform] from [RealtimeSubscriberArgs].  The interface requires
    [subscriber]; the option stands for a caller that leaves it
    [undefined] all the same. *)
Record Args := {
  args_iot : Input IotRef;
  args_subscriber : option (Input FunctionDef);
  args_filter : option (Input string);
  args_transform : option TransformMap;
}.

Definition pulumiType : string := "sst:aws:RealtimeLambdaSubscriber".

Record RealtimeLambdaSubscriber := {
  fn : Output Function.t;
  permission : Permission.t;
  rule : TopicRule.t;
}.

Section constructor.
Context (engine : Engine).
Context (name : string) (args : Args).

Definition self : string := name.

Definition normalizeFilter : Output string :=
  output (default (Plain "#") (args_filter args)).

Definition createFunction (iot : Output IotRef) (filter : Output string)
    : M (Output Function.t) :=
  Function.fromDefinition engine
    (name +:+ "Handler")
    (args_subscriber args)
    {[ "description" :=
         VStr (Deferred (interpolate
           [Lit "Subscribed to "; Hole (apply iot iot_name);
            Lit " on "; Hole filter])) ]}
    (MkOpts (Some self) ∅).

Definition topicRuleDefaults (filter : Output string)
    (fn : Output Function.t) : Struct :=
  {[ "sqlVersion" := VStr (Plain "2016-03-23");
     "sql" := VStr (Deferred (interpolate
                [Lit "SELECT * FROM '"; Hole filter; Lit "'"]));
     "enabled" := VBool (Plain true);
     "lambdas" := VArr [VObj [("functionArn",
                    VStr (Deferred (apply fn (λ f, Deferred (Function.arn f)))))]] ]}.

(** The call hands [transform] the hook and the defaults and nothing
    else: it marks no field of the draft as owned. *)
Definition createRule (filter : Output string) (fn : Output Function.t)
    : M TopicRule.t :=
  TopicRule.new engine
    (name +:+ "Rule")
    (transform ∅ (args_transform args ≫= topicRule)
       (topicRuleDefaults filter fn))
    (MkOpts (Some self) ∅).

Definition permissionArgs (fn : Output Function.t) (rule : TopicRule.t)
    : Struct :=
  {[ "action" := VStr (Plain "lambda:InvokeFunction");
     "function" := VStr (Deferred (apply fn (λ f, Deferred (Function.name f))));
     "principal" := VStr (Plain "iot.amazonaws.com");
     "sourceArn" := VStr (Deferred (TopicRule.arn rule)) ]}.

Definition createPermission (fn : Output Function.t) (rule : TopicRule.t)
    : M Permission.t :=
  Permission.new
    (name +:+ "Permission")
    (permissionArgs fn rule)
    (MkOpts (Some self) ∅).

Definition constructor (opts : option ResourceOptions)
    : M RealtimeLambdaSubscriber :=
  _ ← Component.new pulumiType name opts;
  let iot := output (args_iot args) in
  let filter := normalizeFilter in
  fn ← createFunction iot filter;
  rule ← createRule filter fn;
  permission ← createPermission fn rule;
  mret {| fn := fn; permission := permission; rule := rule |}.
End constructor.

(** What the [nodes] getter hands out. *)
Inductive Handle :=
| HFunction (f : Output Function.t)
| HPermission (p : Permission.t)
| HTopicRule (r : TopicRule.t).

Definition nodes (this : RealtimeLambdaSubscriber) : list (string * Handle) :=
  [ ("function", HFunction (fn this));
    ("permission", HPermission (permission this));
    ("rule", HTopicRule (rule this)) ].


(** ** The outcome of one construction *)

(** The nodes a declaration appends to the registry it starts from. *)
Definition declared {A} (m : M A) (st : Registry) : list ResourceNode :=
  drop (length st) (m st).2.

Section run.
Context (engine : Engine) (name : string) (args : Args).

Definition handlerDraft : Draft :=
  DraftDefinition (args_subscriber args)
    {[ "description" :=
         VStr (Deferred (interpolate
           [Lit "Subscribed to ";
            Hole (apply (output (args_iot args)) iot_name);
            Lit " on "; Hole (normalizeFilter args)])) ]}.

Definition handlerNode : ResourceNode :=
  MkNode KFunction (name +:+ "Handler") (Some name) handlerDraft
    (draftDeps handlerDraft ∪ ∅).

Definition fnHandle : Output Function.t :=
  MkOutput
    (Function.Mk (name +:+ "Handler")
       (attribute engine handlerNode "arn")
       (attribute engine handlerNode "name"))
    (from_option inputDeps ∅ (args_subscriber args)).

Definition ruleDraft : Struct :=
  transform ∅ (args_transform args ≫= topicRule)
    (topicRuleDefaults (normalizeFilter args) fnHandle).

Definition ruleNode : ResourceNode :=
  MkNode KTopicRule (name +:+ "Rule") (Some name) (DraftStruct ruleDraft)
    (structDeps ruleDraft ∪ ∅).

Definition ruleHandle : TopicRule.t :=
  TopicRule.Mk (name +:+ "Rule") (attribute engine ruleNode "arn").

Definition permissionNode : ResourceNode :=
  MkNode KPermission (name +:+ "Permission") (Some name)
    (DraftStruct (permissionArgs fnHandle ruleHandle))
    (structDeps (permissionArgs fnHandle ruleHandle) ∪ ∅).

Definition componentNode (opts : option ResourceOptions) : ResourceNode :=
  MkNode (KComponent pulumiType) name
    (opt_parent (default (MkOpts None ∅) opts))
    (DraftStruct ∅)
    (structDeps ∅ ∪ opt_dependsOn (default (MkOpts None ∅) opts)).

Definition built : RealtimeLambdaSubscriber :=
  {| fn := fnHandle;
     permission := Permission.Mk (name +:+ "Permission");
     rule := ruleHandle |}.
End run.

(** ** Sample inputs *)

Definition engine0 : Engine := λ n attr, attr +:+ ":" +:+ identity n.

(** A hook that overwrites every field of the topic-rule draft and adds
    one of its own. *)
Definition adversary : Transform := λ _,
  {[ "sqlVersion" := VStr (Plain "2015-10-08");
     "sql" := VStr (Plain "SELECT * FROM 'elsewhere'");
     "enabled" := VBool (Plain false);
     "lambdas" := VArr [];
     "description" := VStr (Plain "hijacked") ]}.

Definition argsPlain : Args :=
  {| args_iot := Plain {| iot_name := Plain "MyRealtime" |};
     args_subscriber := Some (Plain (DefHandler "handler.entry"));
     args_filter := Some (Plain "devices/+/status");
     args_transform := None |}.

Definition argsAdversary : Args :=
  {| args_iot := Plain {| iot_name := Plain "MyRealtime" |};
     args_subscriber := Some (Plain (DefHandler "handler.entry"));
     args_filter := None;
     args_transform := Some {| topicRule := Some adversary |} |}.

Definition argsNoFilter : Args :=
  {| args_iot := Plain {| iot_name := Plain "MyRealtime" |};
     args_subscriber := Some (Plain (DefHandler "handler.entry"));
     args_filter := None;
     args_transform := None |}.

(** * Properties *)

(** ** Dependency sets *)

Lemma union_list_join (ls : list (list Deps)) :
  ⋃ (mjoin ls) = ⋃ (union_list <$> ls).
Proof.
  induction ls as [|l ls IH]; [done|].
  change (mjoin (l :: ls)) with (l ++ mjoin ls).
  rewrite union_list_app_L, IH. done.
Qed.

Lemma union_list_fmap_ext {A} (f g : A → Deps) (l : list A) :
  Forall (λ x, f x = g x) l → ⋃ (f <$> l) = ⋃ (g <$> l).
Proof.
  induction 1 as [|x l Hx _ IH]; [done|].
  cbn. by rewrite Hx, IH.
Qed.

(** The dependencies of a draft value are the union over its leaves. *)
Lemma valDeps_leaves (v : Val) : valDeps v = ⋃ (valLeaves v).
Proof.
  induction v as [i|i|l IH|fields IH] using Val_ind.
  - symmetry. apply union_list_singleton_L.
  - symmetry. apply union_list_singleton_L.
  - change (⋃ (valDeps <$> l) = ⋃ (mjoin (valLeaves <$> l))).
    rewrite union_list_join, <-list_fmap_compose.
    by apply union_list_fmap_ext.
  - change (⋃ ((λ kv, valDeps kv.2) <$> fields)
            = ⋃ (mjoin ((λ kv, valLeaves kv.2) <$> fields))).
    rewrite union_list_join, <-list_fmap_compose.
    by apply union_list_fmap_ext.
Qed.

Lemma structDeps_leaves (s : Struct) : structDeps s = ⋃ (structLeaves s).
Proof.
  unfold structDeps, structLeaves.
  rewrite union_list_join, <-list_fmap_compose.
  apply union_list_fmap_ext, Forall_forall.
  intros kv _. apply valDeps_leaves.
Qed.

Lemma definitionDeps_leaves (def : option (Input FunctionDef)) :
  definitionDeps def = ⋃ (definitionLeaves def).
Proof.
  destruct def as [i|]; [|done].
  unfold definitionDeps, definitionLeaves.
  rewrite union_list_cons. f_equal.
  destruct (value (output i)); [done|apply structDeps_leaves].
Qed.

Lemma draftDeps_leaves (d : Draft) : draftDeps d = ⋃ (draftLeaves d).
Proof.
  destruct d as [s|def override]; unfold draftDeps, draftLeaves.
  - apply structDeps_leaves.
  - by rewrite union_list_app_L, structDeps_leaves, definitionDeps_leaves.
Qed.

Lemma structDeps_empty : structDeps ∅ = ∅.
Proof. unfold structDeps. by rewrite map_to_list_empty. Qed.

Lemma structDeps_insert (s : Struct) k v :
  s !! k = None → structDeps (<[k:=v]> s) = valDeps v ∪ structDeps s.
Proof.
  intros Hk. unfold structDeps.
  apply leibniz_equiv. rewrite (map_to_list_insert s k v Hk). done.
Qed.

Lemma structDeps_singleton k v : structDeps {[ k := v ]} = valDeps v.
Proof.
  unfold structDeps. rewrite map_to_list_singleton. cbn.
  by rewrite union_empty_r_L.
Qed.

Lemma elem_of_structDeps (s : Struct) x :
  x ∈ structDeps s ↔ ∃ k v, s !! k = Some v ∧ x ∈ valDeps v.
Proof.
  unfold structDeps. rewrite elem_of_union_list. split.
  - intros (X & HX & Hx). apply list_elem_of_fmap in HX as ([k v] & -> & Hkv).
    apply elem_of_map_to_list in Hkv. by exists k, v.
  - intros (k & v & Hkv & Hx). exists (valDeps v). split; [|done].
    apply list_elem_of_fmap. exists (k, v). split; [done|].
    by apply elem_of_map_to_list.
Qed.

Lemma interpolate_deps (t : list Part) :
  deps (interpolate t) = ⋃ (deps <$> holes t).
Proof.
  induction t as [|[s|h] t IH]; cbn; [done|done|]. by rewrite IH.
Qed.

(** ** Transform hooks *)

Section transform_facts.
Context (owned : gset string).

Lemma reassert_lookup (defaults candidate : Struct) (k : string) :
  reassert owned defaults candidate !! k =
    if decide (k ∈ owned) then defaults !! k else candidate !! k.
Proof.
  unfold reassert. rewrite lookup_union, !map_lookup_filter.
  destruct (decide (k ∈ owned)) as [Hk|Hk];
    destruct (defaults !! k) as [v|], (candidate !! k) as [w|]; cbn;
    repeat case_guard; cbn in *; done.
Qed.

Lemma transform_owned hook (defaults : Struct) (k : string) :
  k ∈ owned → transform owned hook defaults !! k = defaults !! k.
Proof.
  intros Hk. destruct hook as [h|]; [|done]. cbn.
  rewrite reassert_lookup. by rewrite decide_True.
Qed.

Lemma transform_other h (defaults : Struct) (k : string) :
  k ∉ owned → transform owned (Some h) defaults !! k = h defaults !! k.
Proof.
  intros Hk. cbn. rewrite reassert_lookup. by rewrite decide_False.
Qed.

Lemma reassert_same (defaults : Struct) :
  reassert owned defaults defaults = defaults.
Proof.
  apply map_eq. intros k. rewrite reassert_lookup. by case_decide.
Qed.
End transform_facts.



(** ** One run of the constructor *)

Lemma constructor_run engine name args opts st :
  constructor engine name args opts st =
    (Returned (built engine name args),
     st ++ [componentNode name opts; handlerNode name args;
            ruleNode engine name args; permissionNode engine name args]).
Proof.
  unfold constructor, Component.new, createFunction, createRule,
    createPermission, Function.fromDefinition, TopicRule.new, Permission.new,
    declare.
  unfold mbind, mret, M_bind, M_ret. cbv beta iota.
  rewrite <-!app_assoc. reflexivity.
Qed.

Lemma declared_app {A} (m : M A) st r new :
  m st = (r, st ++ new) → declared m st = new.
Proof.
  intros Hm. unfold declared. rewrite Hm. cbn. by rewrite drop_app_length.
Qed.

Lemma topicRuleDefaults_deps filter fn :
  structDeps (topicRuleDefaults filter fn) =
    deps filter ∪ (deps fn ∪ deps (Function.arn (value fn))).
Proof.
  unfold topicRuleDefaults.
  rewrite !structDeps_insert, structDeps_singleton by done.
  cbn. unfold inputDeps. cbn.
  by rewrite ?(left_id_L ∅ (∪)), ?(right_id_L ∅ (∪)).
Qed.

Lemma permissionArgs_deps fn rule :
  structDeps (permissionArgs fn rule) =
    (deps fn ∪ deps (Function.name (value fn))) ∪ deps (TopicRule.arn rule).
Proof.
  unfold permissionArgs.
  rewrite !structDeps_insert, structDeps_singleton by done.
  cbn. unfold inputDeps. cbn.
  by rewrite ?(left_id_L ∅ (∪)), ?(right_id_L ∅ (∪)).
Qed.

(** Every claim below starts from the same run of the constructor. *)
Ltac run_constructor :=
  eexists _, _, _, _, _; split; [apply constructor_run|].

(** ** Transform hooks and owned fields *)



(** C7: an identity hook gives the same merged draft as no hook, and
    without a hook the defaults come back unchanged; hence a composite
    built with an identity hook is the composite built without one. *)
Theorem identity_hook_is_no_hook (owned : gset string) (defaults : Struct) :
  transform owned (Some (λ draft, draft)) defaults
    = transform owned None defaults ∧
  transform owned None defaults = defaults ∧
  ∀ engine name iot subscriber filter opts st,
    constructor engine name
      {| args_iot := iot; args_subscriber := subscriber;
         args_filter := filter;
         args_transform := Some {| topicRule := Some (λ draft, draft) |} |}
      opts st
    = constructor engine name
      {| args_iot := iot; args_subscriber := subscriber;
         args_filter := filter; args_transform := None |}
      opts st.
Proof.
  split; [apply reassert_same|]. split; [reflexivity|].
  intros. rewrite !constructor_run.
  unfold built, ruleHandle, permissionNode, ruleHandle, ruleNode, ruleDraft.
  cbn [args_transform args_filter args_subscriber args_iot mbind option_bind
       topicRule transform].
  by rewrite reassert_same.
Qed.

(** ** The declared graph *)

(** C2: without a transform, for every name and subscriber the
    constructor declares, after the composite itself, exactly a handler
    function, a topic rule and a permission, in that order, all parented
    to the composite.  The rule's [lambdas] entry references the
    function's ARN and so the rule depends on the handler; the
    permission's [sourceArn] is the rule's ARN and so the permission
    depends on the rule. *)
Theorem three_children_chain engine name iot subscriber filter opts st :
  ∃ this comp h r p,
    constructor engine name
      {| args_iot := iot; args_subscriber := Some subscriber;
         args_filter := filter; args_transform := None |} opts st
      = (Returned this, st ++ [comp; h; r; p]) ∧
    kind comp = KComponent pulumiType ∧
    (kind h, kind r, kind p) = (KFunction, KTopicRule, KPermission) ∧
    (parent h, parent r, parent p) = (Some name, Some name, Some name) ∧
    (∃ draft, draftArgs r = DraftStruct draft ∧
       draft !! "lambdas" = Some (VArr [VObj [("functionArn",
         VStr (Deferred (apply (fn this) (λ f, Deferred (Function.arn f)))))]]) ∧
       value (apply (fn this) (λ f, Deferred (Function.arn f))) = engine h "arn") ∧
    (∃ draft, draftArgs p = DraftStruct draft ∧
       draft !! "sourceArn" = Some (VStr (Deferred (TopicRule.arn (rule this)))) ∧
       value (TopicRule.arn (rule this)) = engine r "arn") ∧
    dependsOn r
      = from_option inputDeps ∅ filter ∪ (inputDeps subscriber ∪ {[ identity h ]}) ∧
    dependsOn p
      = (inputDeps subscriber ∪ {[ identity h ]}) ∪ {[ identity r ]} ∧
    identity h ∈ dependsOn r ∧
    identity r ∈ dependsOn p.
Proof.
  run_constructor.
  assert (Hr : dependsOn (ruleNode engine name
              {| args_iot := iot; args_subscriber := Some subscriber;
                 args_filter := filter; args_transform := None |})
            = from_option inputDeps ∅ filter
              ∪ (inputDeps subscriber ∪ {[ name +:+ "Handler" ]})).
  { unfold ruleNode, ruleDraft. cbn [dependsOn args_transform mbind option_bind transform].
    rewrite topicRuleDefaults_deps, (right_id_L ∅ (∪)).
    by destruct filter. }
  assert (Hp : dependsOn (permissionNode engine name
              {| args_iot := iot; args_subscriber := Some subscriber;
                 args_filter := filter; args_transform := None |})
            = (inputDeps subscriber ∪ {[ name +:+ "Handler" ]})
              ∪ {[ name +:+ "Rule" ]}).
  { unfold permissionNode. cbn [dependsOn].
    by rewrite permissionArgs_deps, (right_id_L ∅ (∪)). }
  repeat split; try reflexivity.
  - eexists. repeat split; reflexivity.
  - eexists. repeat split; reflexivity.
  - exact Hr.
  - exact Hp.
  - rewrite Hr. cbn [identity handlerNode].
    apply elem_of_union_r, elem_of_union_r. by apply elem_of_singleton.
  - rewrite Hp. cbn [identity ruleNode].
    apply elem_of_union_r. by apply elem_of_singleton.
Qed.

(** The end-to-end scenario: [subscriber = "handler.entry"], no transform. *)
Example handler_entry_run :
  (constructor engine0 "sub" argsPlain None []).1
    = Returned (built engine0 "sub" argsPlain) ∧
  (λ n, (identity n, elements (dependsOn n)))
    <$> (constructor engine0 "sub" argsPlain None []).2
    = [ ("sub", []);
        ("subHandler", []);
        ("subRule", ["subHandler"]);
        ("subPermission", ["subRule"; "subHandler"]) ].
Proof. vm_compute. done. Qed.

(** C10: the identities of the three children are the composite's name
    suffixed with [Handler], [Rule] and [Permission]; they are the same
    for any two argument sets, options, engines and starting registries. *)
Theorem child_identities name engine1 args1 opts1 st1 engine2 args2 opts2 st2 :
  identity <$> declared (constructor engine1 name args1 opts1) st1
    = [name; name +:+ "Handler"; name +:+ "Rule"; name +:+ "Permission"] ∧
  identity <$> declared (constructor engine1 name args1 opts1) st1
    = identity <$> declared (constructor engine2 name args2 opts2) st2 ∧
  ∃ this, (constructor engine1 name args1 opts1 st1).1 = Returned this ∧
    Function.identity (value (fn this)) = name +:+ "Handler" ∧
    TopicRule.identity (rule this) = name +:+ "Rule" ∧
    Permission.identity (permission this) = name +:+ "Permission".
Proof.
  rewrite !(declared_app _ _ _ _ (constructor_run _ _ _ _ _)).
  repeat split. rewrite constructor_run. by eexists.
Qed.

(** ** Filter normalisation *)


(** The two scenarios of the default-filter property. *)
Example filter_scenarios :
  normalizeFilter argsNoFilter = MkOutput "#" ∅ ∧
  normalizeFilter argsPlain = MkOutput "devices/+/status" ∅ ∧
  ruleDraft engine0 "sub" argsNoFilter !! "sql"
    = Some (VStr (Deferred (MkOutput "SELECT * FROM '#'" ∅))) ∧
  ruleDraft engine0 "sub" argsPlain !! "sql"
    = Some (VStr (Deferred (MkOutput "SELECT * FROM 'devices/+/status'" ∅))).
Proof. vm_compute. done. Qed.

(** ** Dependency sets *)

(** C5: a declared node depends on exactly the union of the dependency
    sets of the deferred values its draft references, plus the explicit
    dependencies; an interpolation depends on the union of its holes, a
    projection on its source and on the projected field.  So it is for
    the three children, which have no explicit dependency, and for the
    handler's description, built from the realtime name and the filter. *)
Theorem dependency_set_is_union :
  (∀ k id draft opts st,
     ∃ n, declare k id draft opts st = (Returned n, st ++ [n]) ∧
          draftArgs n = draft ∧
          dependsOn n = ⋃ (draftLeaves draft) ∪ opt_dependsOn opts) ∧
  (∀ t, deps (interpolate t) = ⋃ (deps <$> holes t)) ∧
  (∀ A B (o : Output A) (f : A → Input B),
     deps (apply o f) = deps o ∪ inputDeps (f (value o))) ∧
  (∀ engine name args opts st,
     ∃ this comp h r p,
       constructor engine name args opts st
         = (Returned this, st ++ [comp; h; r; p]) ∧
       dependsOn h = ⋃ (draftLeaves (draftArgs h)) ∧
       dependsOn r = ⋃ (draftLeaves (draftArgs r)) ∧
       dependsOn p = ⋃ (draftLeaves (draftArgs p)) ∧
       ∃ override description,
         draftArgs h = DraftDefinition (args_subscriber args) override ∧
         override !! "description" = Some (VStr (Deferred description)) ∧
         deps description
           = (inputDeps (args_iot args)
              ∪ inputDeps (iot_name (value (output (args_iot args)))))
             ∪ deps (normalizeFilter args)).
Proof.
  split; [|split; [|split]].
  - intros k id draft opts st. eexists. split; [reflexivity|].
    split; [reflexivity|]. cbn. by rewrite draftDeps_leaves.
  - apply interpolate_deps.
  - reflexivity.
  - intros engine name args opts st. run_constructor.
    split; [|split; [|split]].
    + cbn [dependsOn draftArgs handlerNode].
      rewrite (right_id_L ∅ (∪)). apply draftDeps_leaves.
    + cbn [dependsOn draftArgs ruleNode draftLeaves].
      rewrite (right_id_L ∅ (∪)). apply structDeps_leaves.
    + cbn [dependsOn draftArgs permissionNode draftLeaves].
      rewrite (right_id_L ∅ (∪)). apply structDeps_leaves.
    + eexists _, _. split; [reflexivity|]. split; [reflexivity|].
      cbn. unfold inputDeps. by rewrite (right_id_L ∅ (∪)).
Qed.

(** ** The permission draft *)

(** C9: whatever the arguments and hooks, the permission is declared
    with exactly four fields: the fixed action and principal, the handler
    function's name and the topic rule's ARN; no transform touches it. *)
Theorem permission_draft_fixed engine name args opts st :
  ∃ this comp h r p,
    constructor engine name args opts st
      = (Returned this, st ++ [comp; h; r; p]) ∧
    ∃ draft,
      draftArgs p = DraftStruct draft ∧
      draft = permissionArgs (fn this) (rule this) ∧
      dom draft = {[ "action"; "function"; "principal"; "sourceArn" ]} ∧
      draft !! "action" = Some (VStr (Plain "lambda:InvokeFunction")) ∧
      draft !! "principal" = Some (VStr (Plain "iot.amazonaws.com")) ∧
      draft !! "function"
        = Some (VStr (Deferred
            (apply (fn this) (λ f, Deferred (Function.name f))))) ∧
      draft !! "sourceArn" = Some (VStr (Deferred (TopicRule.arn (rule this)))) ∧
      value (apply (fn this) (λ f, Deferred (Function.name f))) = engine h "name" ∧
      value (TopicRule.arn (rule this)) = engine r "arn".
Proof.
  run_constructor. eexists. split; [reflexivity|]. split; [reflexivity|].
  split.
  - unfold permissionArgs. rewrite !dom_insert_L, dom_singleton_L.
    by rewrite <-!(assoc_L (∪)).
  - repeat split; reflexivity.
Qed.

(** ** The published nodes *)

(** C6: the [nodes] mapping of every composite has the keys [function],
    [permission] and [rule], in this order and no other, whatever the
    inputs; its values are the three stored child handles. *)
Theorem nodes_keys_fixed (this other : RealtimeLambdaSubscriber) :
  (nodes this).*1 = ["function"; "permission"; "rule"] ∧
  (nodes this).*1 = (nodes other).*1 ∧
  (nodes this).*2
    = [HFunction (fn this); HPermission (permission this);
       HTopicRule (rule this)] ∧
  ∀ engine name args opts st,
    ∃ c, (constructor engine name args opts st).1 = Returned c ∧
         (nodes c).*1 = ["function"; "permission"; "rule"].
Proof.
  repeat split. intros. rewrite constructor_run. by eexists.
Qed.

(** ** Ownership *)

(** C8: one construction appends the composite and its three children to
    the registry and changes nothing that was declared before.  Each child
    is declared by its own step, once, under an identity of its own, with
    the composite as parent; the later steps leave it as it was declared,
    and the composite's three fields are the handles of these nodes. *)
Theorem children_declared_once engine name args opts st :
  ∃ this comp h r p,
    constructor engine name args opts st
      = (Returned this, st ++ [comp; h; r; p]) ∧
    identity comp = name ∧
    (parent h, parent r, parent p)
      = (Some (identity comp), Some (identity comp), Some (identity comp)) ∧
    NoDup [identity h; identity r; identity p] ∧
    createFunction engine name args (output (args_iot args))
        (normalizeFilter args) (st ++ [comp])
      = (Returned (fn this), (st ++ [comp]) ++ [h]) ∧
    createRule engine name args (normalizeFilter args) (fn this)
        (st ++ [comp; h])
      = (Returned (rule this), (st ++ [comp; h]) ++ [r]) ∧
    createPermission name (fn this) (rule this) (st ++ [comp; h; r])
      = (Returned (permission this), (st ++ [comp; h; r]) ++ [p]) ∧
    (Function.identity (value (fn this)), TopicRule.identity (rule this),
     Permission.identity (permission this))
      = (identity h, identity r, identity p).
Proof.
  run_constructor. repeat split.
  cbn [identity handlerNode ruleNode permissionNode].
  repeat apply NoDup_cons_2; [..|apply NoDup_nil_2];
    rewrite ?elem_of_cons, ?elem_of_nil;
    intros H; repeat destruct H as [H|H]; try done;
    by apply (inj (String.append name)) in H.
Qed.

(** * Further properties of the component *)

(** ** Strings *)

Lemma append_nil_r (s : string) : s +:+ "" = s.
Proof.
  induction s as [|a s IH]; [done|].
  change (String a (s +:+ "") = String a s). by f_equal.
Qed.

Lemma list_ascii_of_append (s1 s2 : string) :
  String.list_ascii_of_string (s1 +:+ s2)
    = String.list_ascii_of_string s1 ++ String.list_ascii_of_string s2.
Proof.
  induction s1 as [|a s1 IH]; [done|].
  change (a :: String.list_ascii_of_string (s1 +:+ s2)
          = a :: (String.list_ascii_of_string s1
                  ++ String.list_ascii_of_string s2)).
  by f_equal.
Qed.

Lemma list_ascii_of_string_inj (s1 s2 : string) :
  String.list_ascii_of_string s1 = String.list_ascii_of_string s2 → s1 = s2.
Proof.
  intros H. rewrite <-(String.string_of_list_ascii_of_string s1),
    <-(String.string_of_list_ascii_of_string s2). by rewrite H.
Qed.

(** A suffix can be cancelled. *)
Lemma append_inj_suffix (a b s : string) : a +:+ s = b +:+ s → a = b.
Proof.
  intros Heq. apply (f_equal String.list_ascii_of_string) in Heq.
  rewrite !list_ascii_of_append in Heq.
  apply app_inv_tail in Heq. by apply list_ascii_of_string_inj.
Qed.

(** The last character of an appended, non-empty suffix is the last
    character of the whole. *)
Lemma append_last (a : string) (c : Ascii.ascii) (s : string) :
  last (String.list_ascii_of_string (a +:+ String c s))
    = last (c :: String.list_ascii_of_string s).
Proof.
  rewrite list_ascii_of_append, last_app.
  change (String.list_ascii_of_string (String c s))
    with (c :: String.list_ascii_of_string s).
  by destruct (last_is_Some (c :: String.list_ascii_of_string s)) as [_ [x ->]].
Qed.

(** Suffixes that end differently never give the same string. *)
Lemma append_last_ne (a b : string) c1 s1 c2 s2 :
  last (c1 :: String.list_ascii_of_string s1)
    ≠ last (c2 :: String.list_ascii_of_string s2) →
  a +:+ String c1 s1 ≠ b +:+ String c2 s2.
Proof.
  intros Hne Heq. apply Hne.
  by rewrite <-(append_last a c1 s1), <-(append_last b c2 s2), Heq.
Qed.

(** ** The handler function *)

(** X1: the handler is declared with the caller's subscriber and one override,
    [description], which resolves to the sentence naming the realtime
    component and the filter in force, ["#"] when none is given. *)
Theorem handler_description engine name args opts st :
  ∃ this comp h r p,
    constructor engine name args opts st
      = (Returned this, st ++ [comp; h; r; p]) ∧
    ∃ override description,
      draftArgs h = DraftDefinition (args_subscriber args) override ∧
      dom override = {[ "description" ]} ∧
      override !! "description" = Some (VStr (Deferred description)) ∧
      value description
        = "Subscribed to "
          +:+ value (output (iot_name (value (output (args_iot args)))))
          +:+ " on "
          +:+ match args_filter args with
              | None => "#"
              | Some f => value (output f)
              end.
Proof.
  run_constructor. eexists _, _. split; [reflexivity|].
  split; [apply dom_singleton_L|]. split; [apply lookup_singleton_eq|].
  unfold normalizeFilter.
  cbn [interpolate value apply]. rewrite append_nil_r.
  by destruct (args_filter args).
Qed.

(** X2: the handler depends on exactly what the caller's inputs depend on:
    the subscriber definition, the realtime reference and its name, and
    the filter.  Nothing the composite declares is among its dependencies
    unless an input brings it. *)
Theorem handler_depends_on_inputs engine name args opts st :
  ∃ this comp h r p,
    constructor engine name args opts st
      = (Returned this, st ++ [comp; h; r; p]) ∧
    dependsOn h
      = definitionDeps (args_subscriber args)
        ∪ ((inputDeps (args_iot args)
            ∪ inputDeps (iot_name (value (output (args_iot args)))))
           ∪ from_option inputDeps ∅ (args_filter args)).
Proof.
  run_constructor.
  unfold handlerNode, handlerDraft, normalizeFilter.
  cbn [dependsOn draftDeps]. rewrite structDeps_singleton.
  cbn [valDeps interpolate]. unfold inputDeps at 1.
  cbn [output deps apply]. rewrite !(right_id_L ∅ (∪)).
  by destruct (args_filter args).
Qed.

(** ** The topic rule without a hook *)

(** X3: when the caller gives no transform at all, or a transform map without
    a [topicRule] entry, the rule is declared with the composite's draft
    as it stands: four fields and no other, SQL version 2016-03-23,
    enabled, and a single [lambdas] entry; both calls declare the same
    graph. *)
Theorem rule_without_hook engine name iot subscriber filter opts st :
  let without :=
    {| args_iot := iot; args_subscriber := subscriber;
       args_filter := filter; args_transform := None |} in
  let empty :=
    {| args_iot := iot; args_subscriber := subscriber;
       args_filter := filter;
       args_transform := Some {| topicRule := None |} |} in
  constructor engine name empty opts st
    = constructor engine name without opts st ∧
  ∃ this comp h r p,
    constructor engine name without opts st
      = (Returned this, st ++ [comp; h; r; p]) ∧
    ∃ draft,
      draftArgs r = DraftStruct draft ∧
      draft = topicRuleDefaults (normalizeFilter without) (fn this) ∧
      dom draft = {[ "sqlVersion"; "sql"; "enabled"; "lambdas" ]} ∧
      draft !! "sqlVersion" = Some (VStr (Plain "2016-03-23")) ∧
      draft !! "enabled" = Some (VBool (Plain true)) ∧
      ∃ entry, draft !! "lambdas" = Some (VArr [entry]).
Proof.
  cbv zeta. split; [by rewrite !constructor_run|].
  run_constructor. eexists. split; [reflexivity|]. split; [reflexivity|].
  split.
  - unfold ruleDraft, topicRuleDefaults.
    cbn [args_transform mbind option_bind transform].
    rewrite !dom_insert_L, dom_singleton_L.
    by rewrite <-!(assoc_L (∪)).
  - split; [reflexivity|]. split; [reflexivity|]. by eexists.
Qed.

(** ** The permission *)

(** X4: whatever the arguments and hooks, the permission depends on the
    handler, through the function name, and on the rule, through the
    source ARN; beyond these two it only inherits what the subscriber
    input depends on. *)
Theorem permission_depends_on_both engine name args opts st :
  ∃ this comp h r p,
    constructor engine name args opts st
      = (Returned this, st ++ [comp; h; r; p]) ∧
    dependsOn p
      = (from_option inputDeps ∅ (args_subscriber args) ∪ {[ identity h ]})
        ∪ {[ identity r ]} ∧
    identity h ∈ dependsOn p ∧
    identity r ∈ dependsOn p.
Proof.
  run_constructor.
  assert (Hp : dependsOn (permissionNode engine name args)
            = (from_option inputDeps ∅ (args_subscriber args)
               ∪ {[ name +:+ "Handler" ]}) ∪ {[ name +:+ "Rule" ]}).
  { unfold permissionNode. cbn [dependsOn].
    by rewrite permissionArgs_deps, (right_id_L ∅ (∪)). }
  split; [exact Hp|]. rewrite Hp. cbn [identity handlerNode ruleNode]. split.
  - apply elem_of_union_l, elem_of_union_r. by apply elem_of_singleton.
  - apply elem_of_union_r. by apply elem_of_singleton.
Qed.

(** ** Reading the nodes of a constructed component *)

(** X5: after construction, [nodes] gives under [function] the handle of the
    declared function node, under [permission] the handle of the declared
    permission node and under [rule] the handle of the declared topic-rule
    node, with the ARNs the engine reports for these very nodes. *)
Theorem nodes_after_construction engine name args opts st :
  ∃ this comp h r p f pm rl,
    constructor engine name args opts st
      = (Returned this, st ++ [comp; h; r; p]) ∧
    nodes this
      = [("function", HFunction f); ("permission", HPermission pm);
         ("rule", HTopicRule rl)] ∧
    (kind h, Function.identity (value f), value (Function.arn (value f)),
     value (Function.name (value f)))
      = (KFunction, identity h, engine h "arn", engine h "name") ∧
    (kind p, Permission.identity pm) = (KPermission, identity p) ∧
    (kind r, TopicRule.identity rl, value (TopicRule.arn rl))
      = (KTopicRule, identity r, engine r "arn").
Proof.
  eexists _, _, _, _, _, _, _, _. split; [apply constructor_run|].
  repeat split.
Qed.

(** ** Identities across components *)

(** X6: two children, of the same or of two components, that carry the same
    identity belong to components of the same name and are of the same
    kind: the suffixes keep the children of one component apart, and a
    child's identity determines the name of its component. *)
Theorem shared_child_identity
    engine1 name1 args1 opts1 st1 engine2 name2 args2 opts2 st2 c1 c2 :
  c1 ∈ drop 1 (declared (constructor engine1 name1 args1 opts1) st1) →
  c2 ∈ drop 1 (declared (constructor engine2 name2 args2 opts2) st2) →
  identity c1 = identity c2 →
  name1 = name2 ∧ kind c1 = kind c2.
Proof.
  rewrite !(declared_app _ _ _ _ (constructor_run _ _ _ _ _)).
  cbn [drop]. rewrite !elem_of_cons, !elem_of_nil.
  intros [->|[->|[->|[]]]] [->|[->|[->|[]]]];
    cbn [identity kind handlerNode ruleNode permissionNode]; intros Heq;
    try (apply append_inj_suffix in Heq; by split);
    by apply append_last_ne in Heq.
Qed.

Lemma shared_child_identity_witness :
  "sub" = "sub"
  ∧ kind (handlerNode "sub" argsPlain) = kind (handlerNode "sub" argsAdversary).
Proof.
  apply (shared_child_identity engine0 "sub" argsPlain None []
           engine0 "sub" argsAdversary None []
           (handlerNode "sub" argsPlain) (handlerNode "sub" argsAdversary)).
  - apply list_elem_of_here.
  - apply list_elem_of_here.
  - reflexivity.
Defined.
